(** * The wallet of the JS SDK: [src/wallet/wallet.js]

    A shallow embedding of the [Wallet] class and the properties of its
    construction, encryption, recovery and request signing.

    Conventions of the embedding:
    - JavaScript values are the inductive type [value]; strings are byte
      strings; numbers are exact rationals ([Q]): rounding, [NaN] and the
      infinities of IEEE doubles are outside the model.  The value of a
      number is that of the code where the code's arithmetic is exact;
      a theorem that states such a value says where
      ([exact_in_doubles]), the others do not depend on it.
    - A JavaScript function is a state transformer that returns either a
      result or a thrown error, and the state it leaves behind in both
      cases ([M]).  Static functions run on the [World] (clock, entropy,
      console); methods run on the receiver and the world.
    - What [wallet.js] imports ([Keypair], [hash], [./crypto], [sjcl],
      [JSON]) is the class [Provider]; the contracts it is used under are
      the propositions of the section "Contracts of the imports". *)

From Stdlib Require Import ZArith QArith Qround Lia Ascii DecimalString DecimalZ DecimalPos.
From stdpp Require Import base strings.

Set Default Proof Using "Type".
Set Warnings "-register-all".

(** ** JavaScript values and errors *)

Module JS.

Section Values.
Variable Keypair : Type.

Inductive value : Type :=
| VUndefined
| VNull
| VBool (b : bool)
| VNum (q : Q)
| VStr (s : string)
| VKeypair (k : Keypair)                  (* an instance of Keypair *)
| VObject (fields : list (string * value)). (* any other object *)

(** lodash [isNil], [isString], [isNumber]. *)
Definition isNil (v : value) : bool :=
  match v with VUndefined | VNull => true | _ => false end.

Definition isString (v : value) : bool :=
  match v with VStr _ => true | _ => false end.

Definition isNumber (v : value) : bool :=
  match v with VNum _ => true | _ => false end.

(** ToBoolean: what [if (v)], [!v] and [v && ...] test. *)
Definition truthy (v : value) : bool :=
  match v with
  | VUndefined | VNull => false
  | VBool b => b
  | VNum q => negb (Qeq_bool q 0)
  | VStr s => negb (String.eqb s "")
  | VKeypair _ | VObject _ => true
  end.

Fixpoint assoc (key : string) (fields : list (string * value)) : value :=
  match fields with
  | [] => VUndefined
  | (k, v) :: rest => if String.eqb k key then v else assoc key rest
  end.

End Values.

Arguments VUndefined {Keypair}.
Arguments VNull {Keypair}.
Arguments VBool {Keypair} b.
Arguments VNum {Keypair} q.
Arguments VStr {Keypair} s.
Arguments VKeypair {Keypair} k.
Arguments VObject {Keypair} fields.
Arguments isNil {Keypair} v.
Arguments isString {Keypair} v.
Arguments isNumber {Keypair} v.
Arguments truthy {Keypair} v.
Arguments assoc {Keypair} key fields.

Inductive error : Type :=
| Error (message : string)
| TypeError (message : string).

Inductive outcome (A : Type) : Type :=
| Ok (a : A)
| Throw (e : error).

Arguments Ok {A} a.
Arguments Throw {A} e.

Definition is_ok {A} (o : outcome A) : bool :=
  match o with Ok _ => true | Throw _ => false end.

(** A computation on a state [S]: the state survives a throw. *)
Definition M (S A : Type) : Type := S -> outcome A * S.

Definition ret {S A} (a : A) : M S A := fun s => (Ok a, s).

Definition throw {S A} (e : error) : M S A := fun s => (Throw e, s).

Definition bind {S A B} (m : M S A) (k : A -> M S B) : M S B :=
  fun s =>
    match m s with
    | (Ok a, s') => k a s'
    | (Throw e, s') => (Throw e, s')
    end.

Definition modify {S} (f : S -> S) : M S unit := fun s => (Ok tt, f s).

(** A call that has no effect on the state. *)
Definition pure {S A} (o : outcome A) : M S A := fun s => (o, s).

(** [v.length] of a string. *)
Definition str_length {Keypair} (v : value Keypair) : nat :=
  match v with VStr s => String.length s | _ => 0 end.

(** Property access [v.key]; it throws on [undefined] and [null]. *)
Definition prop {Keypair} (v : value Keypair) (key : string)
  : outcome (value Keypair) :=
  match v with
  | VUndefined | VNull => Throw (TypeError "Cannot read properties")
  | VObject fields => Ok (assoc key fields)
  | _ => Ok VUndefined
  end.

End JS.

Export JS.

Declare Scope js_scope.
Delimit Scope js_scope with js.
Notation "x <~ m ;; k" := (bind m (fun x => k))
  (at level 200, m at level 99, k at level 200, right associativity) : js_scope.
Notation "m ;;; k" := (bind m (fun _ => k))
  (at level 200, k at level 200, right associativity) : js_scope.
Open Scope js_scope.

(** ** The world outside the wallet *)

Record World : Type := {
  clock_ms : Z;            (* what Date.now() and new Date().getTime() read *)
  entropy : nat -> Z;      (* the random source, as a tape *)
  cursor : nat;            (* how much of the tape is used *)
  console : list string    (* lines written by console.log, latest first *)
}.

Definition Date_now : M World Z := fun wd => (Ok (clock_ms wd), wd).

Definition console_log (line : string) : M World unit :=
  modify (fun wd =>
    {| clock_ms := clock_ms wd; entropy := entropy wd; cursor := cursor wd;
       console := line :: console wd |}).

(** ** The imports of wallet.js

    Each import is a parameter.  Those that draw on the random source
    ([Keypair.random], [crypto.randomBytes], [crypto.encryptData]) are
    computations on the world; the others are functions, which may
    throw. *)

Class Provider : Type := {
  Keypair : Type;
  bitArray : Type;
  Digest : Type;
  DecoratedSignature : Type;
  (* ../base: Keypair *)
  Keypair_random : M World Keypair;
  Keypair_fromSecret : value Keypair -> outcome Keypair;
  Keypair_isValidSecretKey : string -> bool;
  Keypair_isValidPublicKey : value Keypair -> bool;
  Keypair_secret : Keypair -> string;
  Keypair_accountId : Keypair -> string;
  Keypair_signDecorated : Keypair -> Digest -> DecoratedSignature;
  toXDR_base64 : DecoratedSignature -> string;
  (* ../base: hash *)
  hash : string -> Digest;
  (* ./crypto *)
  crypto_randomBytes_base64 : nat -> M World string;
  crypto_calculateMasterKey :
    value Keypair -> value Keypair -> value Keypair -> value Keypair ->
    outcome bitArray;
  crypto_deriveWalletId : bitArray -> bitArray;
  crypto_deriveWalletKey : bitArray -> bitArray;
  crypto_encryptData : string -> bitArray -> M World (value Keypair);
  crypto_decryptData : value Keypair -> bitArray -> outcome string;
  (* sjcl.codec.hex *)
  sjcl_codec_hex_fromBits : bitArray -> string;
  (* JSON *)
  JSON_stringify : value Keypair -> string;
  JSON_parse : string -> outcome (value Keypair)
}.

Abbreviation val := (value Keypair).

(** ** The class Wallet *)

Module Wallet.

Section Class.
Context `{P : Provider}.

Definition SIGNATURE_VALID_SEC : Z := 60.

Record t : Type := {
  _email : val;
  _keypair : Keypair;
  _accountId : val;
  _id : val;
  _clockDiff : Q
}.

Definition set_id (i : val) (w : t) : t :=
  {| _email := _email w; _keypair := _keypair w;
     _accountId := _accountId w; _id := i; _clockDiff := _clockDiff w |}.

Definition set_clockDiff (d : Q) (w : t) : t :=
  {| _email := _email w; _keypair := _keypair w;
     _accountId := _accountId w; _id := _id w; _clockDiff := d |}.

(** [new Wallet(email, keypair, accountId, walletId)] *)
Definition constructor (email keypair accountId walletId : val)
  : outcome t :=
  if isNil email then Throw (Error "Email is required.") else
  let checked : outcome Keypair :=
    if isNil keypair then Throw (Error "No keypair provided.")
    else match keypair with
         | VStr seed =>
             if negb (Keypair_isValidSecretKey seed)
             then Throw (Error "Invalid secret seed.")
             else Keypair_fromSecret (VStr seed)
         | VKeypair k => Ok k
         | _ => Throw (Error
             "Invalid keypair. Expected a Keypair instance or a string seed.")
         end in
  match checked with
  | Throw e => Throw e
  | Ok k =>
      if negb (Keypair_isValidPublicKey accountId)
      then Throw (Error "Invalid account ID.")
      else if truthy walletId && negb (isString walletId)
      then Throw (Error "Hex encoded wallet ID expected.")
      else Ok {| _email := email; _keypair := k;
                 _accountId := accountId; _id := walletId;
                 _clockDiff := 0 |}
  end.

(** Static functions. *)

Definition generate (email : val) : M World t :=
  keypair <~ Keypair_random ;;
  pure (constructor email (VKeypair keypair)
          (VStr (Keypair_accountId keypair)) VUndefined).

Definition fromEncrypted (keychainData kdfParams salt email password : val)
  : M World t :=
  rawMasterKey <~ pure (crypto_calculateMasterKey salt email password kdfParams) ;;
  let rawWalletId := crypto_deriveWalletId rawMasterKey in
  let rawWalletKey := crypto_deriveWalletKey rawMasterKey in
  plain <~ pure (crypto_decryptData keychainData rawWalletKey) ;;
  decryptedKeychain <~ pure (JSON_parse plain) ;;
  seed <~ pure (prop decryptedKeychain "seed") ;;
  keypair <~ pure (Keypair_fromSecret seed) ;;
  accountId <~ pure (prop decryptedKeychain "accountId") ;;
  pure (constructor email (VKeypair keypair) accountId
          (VStr (sjcl_codec_hex_fromBits rawWalletId))).

Definition deriveId (email password kdfParams salt : val) : M World string :=
  masterKey <~ pure (crypto_calculateMasterKey salt email password kdfParams) ;;
  let walletId := crypto_deriveWalletId masterKey in
  ret (sjcl_codec_hex_fromBits walletId).

Definition fromRecoverySeed (kdfParams salt email recoverySeed : val)
  : M World t :=
  recoveryKeypair <~ pure (Keypair_fromSecret recoverySeed) ;;
  walletId <~ deriveId email recoverySeed kdfParams salt ;;
  pure (constructor email (VKeypair recoveryKeypair)
          (VStr (Keypair_accountId recoveryKeypair)) (VStr walletId)).

(** Methods: the state is the receiver and the world. *)

Definition this : M (t * World) t := fun s => (Ok (fst s), s).

Definition assign (f : t -> t) : M (t * World) unit :=
  modify (fun s => (f (fst s), snd s)).

Definition world {A} (m : M World A) : M (t * World) A :=
  fun s => let (o, wd) := m (snd s) in (o, (fst s, wd)).

(** Getters. *)

Definition id (w : t) : outcome val :=
  if negb (truthy (_id w))
  then Throw (Error "This wallet has no wallet ID yet.")
  else Ok (_id w).

Definition accountId (w : t) : val := _accountId w.
Definition email (w : t) : val := _email w.
Definition secretSeed (w : t) : string := Keypair_secret (_keypair w).
Definition keypair (w : t) : Keypair := _keypair w.

Definition _getTimestamp : M (t * World) Q :=
  w <~ this ;;
  now <~ world Date_now ;;
  ret (inject_Z (Qfloor (now # 1000)) - _clockDiff w)%Q.

Record headers : Type := {
  X_AuthValidUnTillTimestamp : string;
  X_AuthPublicKey : string;
  X_AuthSignature : string
}.

(** The string that is hashed and signed. *)
Definition signatureBase (uri validUntil : string) : string :=
  "{ uri: '" +:+ uri +:+ "', valid_untill: '" +:+ validUntil +:+ "'}".

(** [n.toString()] of an integral number: its decimal digits, with a
    minus sign when negative (what JavaScript prints below [10^21] in
    size). *)
Definition Number_toString (n : Z) : string :=
  NilZero.string_of_int (Z.to_int n).

Definition signRequest (uri : string) : M (t * World) headers :=
  if String.eqb uri "" then throw (Error "URI required.") else
  ts <~ _getTimestamp ;;
  let validUntil :=
    Number_toString (Qfloor (ts + inject_Z SIGNATURE_VALID_SEC)%Q) in
  let base := signatureBase uri validUntil in
  world (console_log base) ;;;
  let data := hash base in
  w <~ this ;;
  let signature := Keypair_signDecorated (_keypair w) data in
  ret {| X_AuthValidUnTillTimestamp := validUntil;
         X_AuthPublicKey := Keypair_accountId (_keypair w);
         X_AuthSignature := toXDR_base64 signature |}.

Record artifact : Type := {
  art_id : val;
  art_accountId : val;
  art_email : val;
  art_salt : string;
  art_keychainData : val
}.

Definition rawKeychainData (w : t) : val :=
  VObject [("accountId", accountId w); ("seed", VStr (Keypair_secret (_keypair w)))].

Definition encrypt (kdfParams password : val) : M (t * World) artifact :=
  if isNil kdfParams then throw (Error "KDF params required") else
  if negb (isString password) || (str_length password =? 0)%nat
  then throw (TypeError "Password must be a non-empty string") else
  salt <~ world (crypto_randomBytes_base64 16) ;;
  w <~ this ;;
  masterKey <~ pure (crypto_calculateMasterKey (VStr salt) (email w)
                        password kdfParams) ;;
  let walletKey := crypto_deriveWalletKey masterKey in
  keychainData <~ world (crypto_encryptData
                           (JSON_stringify (rawKeychainData w)) walletKey) ;;
  let rawWalletId := crypto_deriveWalletId masterKey in
  assign (set_id (VStr (sjcl_codec_hex_fromBits rawWalletId))) ;;;
  w' <~ this ;;
  ret {| art_id := _id w'; art_accountId := accountId w';
         art_email := email w'; art_salt := salt;
         art_keychainData := keychainData |}.

(** The wallet that [encryptRecoveryData] builds and encrypts. *)
Definition recoveryWallet (w : t) (recoveryKeypair : Keypair) : outcome t :=
  constructor (email w) (VKeypair (_keypair w))
    (VStr (Keypair_accountId recoveryKeypair)) VUndefined.

Definition encryptRecoveryData (kdfParams : val) (recoveryKeypair : Keypair)
  : M (t * World) artifact :=
  w <~ this ;;
  rw <~ pure (recoveryWallet w recoveryKeypair) ;;
  fun s =>
    let (o, s') := encrypt kdfParams (VStr (Keypair_secret recoveryKeypair))
                     (rw, snd s) in
    (o, (fst s, snd s')).

Definition synchronizeTime (timestamp : val) : M (t * World) unit :=
  if isNil timestamp || negb (isNumber timestamp)
  then throw (TypeError
    "Invalid timestamp. A UNIX timestamp in seconds expected.") else
  match timestamp with
  | VNum ts =>
      now <~ world Date_now ;;
      assign (set_clockDiff ((now # 1000) - ts)%Q)
  | _ => ret tt   (* not a number: excluded by the guard *)
  end.

End Class.

End Wallet.

(** ** [deriveId] over imports that may have effects

    In [Provider] the three imports that [deriveId] calls are functions.
    To say that [deriveId] is deterministic without having it by the
    type of the imports, they are taken here as computations on the
    world, which may read and change the clock, the entropy and the
    console, and may throw. *)

Section DeriveId.
Context `{P : Provider}.

Record deriveId_imports : Type := {
  calculateMasterKey_io : val -> val -> val -> val -> M World bitArray;
  deriveWalletId_io : bitArray -> M World bitArray;
  hex_fromBits_io : bitArray -> M World string
}.

(** [Wallet.deriveId(email, password, kdfParams, salt)] *)
Definition deriveId_io (I : deriveId_imports)
    (email password kdfParams salt : val) : M World string :=
  masterKey <~ calculateMasterKey_io I salt email password kdfParams ;;
  walletId <~ deriveWalletId_io I masterKey ;;
  hex_fromBits_io I walletId.

(** The imports of [Provider], as such computations. *)
Definition provider_imports : deriveId_imports :=
  {| calculateMasterKey_io := fun salt email password kdfParams =>
       pure (crypto_calculateMasterKey salt email password kdfParams);
     deriveWalletId_io := fun masterKey => ret (crypto_deriveWalletId masterKey);
     hex_fromBits_io := fun bits => ret (sjcl_codec_hex_fromBits bits) |}.

(** A computation is deterministic when it gives one result in every
    state of the world and leaves the world as it was. *)
Definition deterministic {A} (m : M World A) : Prop :=
  exists r, forall wd, m wd = (r, wd).

(** Modelled from the spec: [crypto.calculateMasterKey],
    [crypto.deriveWalletId] and [sjcl.codec.hex.fromBits] are missing;
    the key derivation is "deterministic", "same inputs => same output",
    and the derivations from the master key are "deterministic one-way
    derivations", with "no side effects; pure functions over their
    inputs". *)
Definition deterministic_imports (I : deriveId_imports) : Prop :=
  (forall salt email password kdfParams,
     deterministic (calculateMasterKey_io I salt email password kdfParams)) /\
  (forall masterKey, deterministic (deriveWalletId_io I masterKey)) /\
  (forall bits, deterministic (hex_fromBits_io I bits)).

End DeriveId.

(** ** Where the arithmetic of [signRequest] is exact

    JavaScript numbers are IEEE doubles.  For a clock of [seconds] whole
    seconds and a clock difference [a / 2^k], the code computes
    [seconds - clockDiff] and then adds 60; both results are multiples
    of [1 / 2^k], and a double holds such a number without rounding when
    its numerator is below [2^53] in size.  The clock of a [Date] stays
    within 8.64e15 ms of the epoch, where [Math.floor(ms / 1000)] is the
    whole number of seconds although [ms / 1000] is rounded.  Under
    these bounds the exact rationals of this file compute what the code
    computes, and the result, below [10^21] in size, is printed in
    digits. *)

Definition in_Date_range (ms : Z) : Prop :=
  (- 8640000000000000 <= ms <= 8640000000000000)%Z.

Definition exact_in_doubles (seconds : Z) (clockDiff : Q) : Prop :=
  exists (a : Z) (k : nat),
    (k <= 1022)%nat /\
    (clockDiff * inject_Z (2 ^ Z.of_nat k) == inject_Z a)%Q /\
    (Z.abs a < 2 ^ 53)%Z /\
    (Z.abs (seconds * 2 ^ Z.of_nat k - a) < 2 ^ 53)%Z /\
    (Z.abs (seconds * 2 ^ Z.of_nat k - a + 60 * 2 ^ Z.of_nat k) < 2 ^ 53)%Z.

(** ** Calls on a wallet, and the wallets a program can hold *)

Section Calls.
Context `{P : Provider}.

Inductive call : Type :=
| CallSignRequest (uri : string)
| CallEncrypt (kdfParams password : val)
| CallEncryptRecoveryData (kdfParams : val) (recoveryKeypair : Keypair)
| CallSynchronizeTime (timestamp : val).

(** The result of a call, with its value forgotten. *)
Definition forget {S A} (m : M S A) : M S unit :=
  fun s => match m s with
           | (Ok _, s') => (Ok tt, s')
           | (Throw e, s') => (Throw e, s')
           end.

Definition run (c : call) : M (Wallet.t * World) unit :=
  match c with
  | CallSignRequest uri => forget (Wallet.signRequest uri)
  | CallEncrypt kdfParams password => forget (Wallet.encrypt kdfParams password)
  | CallEncryptRecoveryData kdfParams rk =>
      forget (Wallet.encryptRecoveryData kdfParams rk)
  | CallSynchronizeTime timestamp => Wallet.synchronizeTime timestamp
  end.

(** A wallet comes out of the constructor and is then changed by calls
    only, each made in some state of the world. *)
Inductive reachable : Wallet.t -> Prop :=
| reachable_new email keypair accountId walletId w :
    Wallet.constructor email keypair accountId walletId = Ok w ->
    reachable w
| reachable_call c w wd :
    reachable w ->
    reachable (fst (snd (run c (w, wd)))).

(** The wallet [w'] is what some calls, each made in some state of the
    world, have made of the wallet [w]. *)
Inductive evolves (w : Wallet.t) : Wallet.t -> Prop :=
| evolves_refl : evolves w w
| evolves_call c w' wd :
    evolves w w' ->
    evolves w (fst (snd (run c (w', wd)))).

(** What the constructor has checked. *)
Definition checked (w : Wallet.t) : Prop :=
  isNil (Wallet._email w) = false /\
  Keypair_isValidPublicKey (Wallet._accountId w) = true /\
  (truthy (Wallet._id w) = true -> isString (Wallet._id w) = true).

End Calls.

(** ** Contracts of the imports

    [./crypto] and [../base] (Keypair) are not among the sources read
    here; the wallet is verified against what the specification requires
    of them. *)

Section Contracts.
Context `{P : Provider}.

(** Modelled from the spec: [crypto.encryptData] and [crypto.decryptData]
    are missing; "decrypt(encrypt(payload, key), key) == payload for any
    valid key".  Decrypting with the key of the encryption gives the
    plaintext back. *)
Definition decrypt_inverts_encrypt : Prop :=
  forall plain key wd c wd',
    crypto_encryptData plain key wd = (Ok c, wd') ->
    crypto_decryptData c key = Ok plain.

(** Modelled from the spec: the keychain is "the JSON-serialized
    {accountId, seed} pair" and the decrypted payload "strict JSON with
    exactly the keys accountId and seed".  The keychain object survives
    [JSON.parse(JSON.stringify(_))]. *)
Definition json_round_trip : Prop :=
  forall a seed,
    Keypair_isValidPublicKey a = true ->
    JSON_parse (JSON_stringify (VObject [("accountId", a); ("seed", VStr seed)]))
    = Ok (VObject [("accountId", a); ("seed", VStr seed)]).

(** Modelled from the spec: [Keypair.fromSecret] and [secret] are
    missing; "keypairFromSeed(seed) -> Keypair".  A keypair can be rebuilt
    from its own secret seed, and has that seed. *)
Definition fromSecret_inverts_secret : Prop :=
  forall k, exists k',
    Keypair_fromSecret (VStr (Keypair_secret k)) = Ok k' /\
    Keypair_secret k' = Keypair_secret k.

(** Modelled from the spec: [Keypair.isValidSecretKey] is missing; a
    secret-seed string is "validated and parsed into" a keypair.  A seed
    that [isValidSecretKey] accepts is parsed by [fromSecret]. *)
Definition valid_seed_parses : Prop :=
  forall seed,
    Keypair_isValidSecretKey seed = true ->
    is_ok (Keypair_fromSecret (VStr seed)) = true.

(** Modelled from the spec: [Keypair.accountId] and
    [Keypair.isValidPublicKey] are missing; an account id "must pass the
    same validation the keypair's own public key would".  The address of
    a keypair is a valid public key. *)
Definition own_address_is_valid : Prop :=
  forall k, Keypair_isValidPublicKey (VStr (Keypair_accountId k)) = true.

End Contracts.

(** ** A small provider

    Two keypairs and transparent "cryptography": enough to run the wallet
    on concrete inputs and to show that the contracts can be met. *)

Module Toy.

Inductive keypair : Type := Alice | Bob.

Abbreviation tval := (value keypair).

Definition secret (k : keypair) : string :=
  match k with Alice => "SALICE" | Bob => "SBOB" end.

Definition accountId (k : keypair) : string :=
  match k with Alice => "GALICE" | Bob => "GBOB" end.

Definition isValidSecretKey (s : string) : bool :=
  String.eqb s "SALICE" || String.eqb s "SBOB".

Definition fromSecret (v : tval) : outcome keypair :=
  match v with
  | VStr s =>
      if String.eqb s "SALICE" then Ok Alice
      else if String.eqb s "SBOB" then Ok Bob
      else Throw (Error "invalid encoded string")
  | _ => Throw (Error "invalid encoded string")
  end.

Definition isValidPublicKey (v : tval) : bool :=
  match v with
  | VStr s => String.eqb s "GALICE" || String.eqb s "GBOB"
  | _ => false
  end.

Definition advance (wd : World) : World :=
  {| clock_ms := clock_ms wd; entropy := entropy wd;
     cursor := S (cursor wd); console := console wd |}.

Definition draw : M World Z :=
  fun wd => (Ok (entropy wd (cursor wd)), advance wd).

Definition random : M World keypair :=
  n <~ draw ;; ret (if Z.even n then Alice else Bob).

Definition randomBytes_base64 (size : nat) : M World string :=
  n <~ draw ;; ret (Wallet.Number_toString n).

Definition calculateMasterKey (salt email password kdfParams : tval)
  : outcome string :=
  match salt, email, password with
  | VStr s, VStr e, VStr p => Ok (s +:+ "/" +:+ e +:+ "/" +:+ p)
  | _, _, _ => Throw (Error "scrypt")
  end.

Definition deriveWalletId (masterKey : string) : string := "1d" +:+ masterKey.
Definition deriveWalletKey (masterKey : string) : string := "0e" +:+ masterKey.

Definition encryptData (plain key : string) : M World tval :=
  ret (VObject [("key", VStr key); ("ct", VStr plain)]).

Definition decryptData (c : tval) (key : string) : outcome string :=
  match c with
  | VObject [(_, VStr k); (_, VStr plain)] =>
      if String.eqb k key then Ok plain else Throw (Error "ccm: tag doesn't match")
  | _ => Throw (Error "json decode")
  end.

Definition stringify (v : tval) : string :=
  match v with
  | VObject [(_, VStr a); (_, VStr seed)] => a +:+ ":" +:+ seed
  | _ => "null"
  end.

Fixpoint strip (prefix s : string) : option string :=
  match prefix, s with
  | EmptyString, _ => Some s
  | String a prefix', String b s' =>
      if Ascii.eqb a b then strip prefix' s' else None
  | String _ _, EmptyString => None
  end.

Definition parse (s : string) : outcome tval :=
  match strip "GALICE:" s, strip "GBOB:" s with
  | Some seed, _ => Ok (VObject [("accountId", VStr "GALICE"); ("seed", VStr seed)])
  | None, Some seed => Ok (VObject [("accountId", VStr "GBOB"); ("seed", VStr seed)])
  | None, None => Throw (Error "Unexpected token")
  end.

Definition provider : Provider := {|
  Keypair := keypair;
  bitArray := string;
  Digest := string;
  DecoratedSignature := string;
  Keypair_random := random;
  Keypair_fromSecret := fromSecret;
  Keypair_isValidSecretKey := isValidSecretKey;
  Keypair_isValidPublicKey := isValidPublicKey;
  Keypair_secret := secret;
  Keypair_accountId := accountId;
  Keypair_signDecorated := fun k d => secret k +:+ d;
  toXDR_base64 := fun sg => sg;
  hash := fun s => s;
  crypto_randomBytes_base64 := randomBytes_base64;
  crypto_calculateMasterKey := calculateMasterKey;
  crypto_deriveWalletId := deriveWalletId;
  crypto_deriveWalletKey := deriveWalletKey;
  crypto_encryptData := encryptData;
  crypto_decryptData := decryptData;
  sjcl_codec_hex_fromBits := fun b => b;
  JSON_stringify := stringify;
  JSON_parse := parse
|}.

(** A world whose tape counts up, at a given reading of the clock. *)
Definition world_at (ms : Z) : World :=
  {| clock_ms := ms; entropy := fun n => Z.of_nat n; cursor := 0;
     console := [] |}.

(** The clock reads 2000.7 s. *)
Definition world0 : World := world_at 2000700.

Definition kdf : tval := VObject [("n", VNum 4096); ("r", VNum 8); ("p", VNum 1)].

(** Alice's wallet, as [generate] makes it. *)
Definition wallet0 : Wallet.t (P := provider) :=
  @Wallet.Build_t provider (VStr "user@example.com") Alice (VStr "GALICE")
    VUndefined 0.

(** Imports of [deriveId] whose key derivation draws from the entropy:
    not deterministic. *)
Definition drawn_key (salt email password kdfParams : tval) : M World string :=
  n <~ draw ;; ret (Wallet.Number_toString n).

Definition drawing_imports : deriveId_imports (P := provider) :=
  @Build_deriveId_imports provider drawn_key
    (fun masterKey => ret (deriveWalletId masterKey))
    (fun bits => ret bits).

End Toy.

(** ** Quotes in strings

    Used for the payload of [signRequest], which delimits its two fields
    by single quotes. *)

(** The number of single quotes in a string. *)
Fixpoint quotes (s : string) : nat :=
  match s with
  | EmptyString => 0
  | String a s' => (if Ascii.eqb a "'"%char then 1 else 0) + quotes s'
  end.

Definition starts_with_quote (s : string) : Prop :=
  exists s', s = String "'"%char s'.

(** * Properties *)

(** Unfold the monad and split on every call that may throw. *)
Ltac unfold_monad :=
  unfold bind, ret, throw, pure, modify, forget,
    Wallet.this, Wallet.assign, Wallet.world, Date_now, console_log in *;
  simpl in *.

Ltac split_calls :=
  repeat (simplify_eq; simpl in *;
          match goal with
          | H : context [match ?x with _ => _ end] |- _ =>
              let E := fresh "E" in destruct x eqn:E
          | H : context [if ?x then _ else _] |- _ =>
              let E := fresh "E" in destruct x eqn:E
          end);
  simplify_eq; simpl in *.

Section Properties.
Context `{P : Provider}.

(** ** The constructor *)

Lemma constructor_ok_inv email keypair accountId walletId w :
  Wallet.constructor email keypair accountId walletId = Ok w ->
  isNil email = false /\
  Keypair_isValidPublicKey accountId = true /\
  truthy walletId && negb (isString walletId) = false /\
  Wallet._email w = email /\
  Wallet._accountId w = accountId /\
  Wallet._id w = walletId /\
  Wallet._clockDiff w = 0%Q.
Proof.
  unfold Wallet.constructor. intros H.
  destruct (isNil email) eqn:He; [discriminate|].
  match type of H with
  | match ?c with _ => _ end = _ => destruct c as [k|]; [|discriminate]
  end.
  destruct (Keypair_isValidPublicKey accountId) eqn:Ha; [|discriminate].
  destruct (truthy walletId && negb (isString walletId)) eqn:Hi;
    [discriminate|].
  simpl in H. by simplify_eq.
Qed.

Lemma constructor_keypair email k accountId walletId :
  isNil email = false ->
  Keypair_isValidPublicKey accountId = true ->
  truthy walletId && negb (isString walletId) = false ->
  Wallet.constructor email (VKeypair k) accountId walletId
  = Ok {| Wallet._email := email; Wallet._keypair := k;
          Wallet._accountId := accountId; Wallet._id := walletId;
          Wallet._clockDiff := 0 |}.
Proof.
  intros He Ha Hi. unfold Wallet.constructor. by rewrite He, Ha, Hi.
Qed.

Lemma constructor_keypair_inv email k accountId walletId w :
  Wallet.constructor email (VKeypair k) accountId walletId = Ok w ->
  Wallet._keypair w = k.
Proof.
  unfold Wallet.constructor. intros H. split_calls. done.
Qed.

(** ** What a call does to the receiver *)

Lemma signRequest_receiver uri w wd :
  fst (snd (Wallet.signRequest uri (w, wd))) = w.
Proof.
  unfold Wallet.signRequest, Wallet._getTimestamp.
  destruct (String.eqb uri ""); by unfold_monad.
Qed.

Lemma synchronizeTime_receiver timestamp w wd :
  fst (snd (Wallet.synchronizeTime timestamp (w, wd))) = w \/
  exists ts, timestamp = VNum ts /\
    Wallet.synchronizeTime timestamp (w, wd)
    = (Ok tt, (Wallet.set_clockDiff ((clock_ms wd # 1000) - ts)%Q w, wd)).
Proof.
  unfold Wallet.synchronizeTime.
  destruct timestamp; unfold_monad; eauto.
Qed.

(** Every way [encrypt] can end. *)
Lemma encrypt_cases kdfParams password w wd :
  (exists e wd', Wallet.encrypt kdfParams password (w, wd) = (Throw e, (w, wd'))) \/
  (exists pw salt wd1 masterKey c wd',
     password = VStr pw /\ pw <> "" /\ isNil kdfParams = false /\
     crypto_randomBytes_base64 16 wd = (Ok salt, wd1) /\
     crypto_calculateMasterKey (VStr salt) (Wallet._email w) password kdfParams
       = Ok masterKey /\
     crypto_encryptData (JSON_stringify (Wallet.rawKeychainData w))
       (crypto_deriveWalletKey masterKey) wd1 = (Ok c, wd') /\
     let i := VStr (sjcl_codec_hex_fromBits (crypto_deriveWalletId masterKey)) in
     Wallet.encrypt kdfParams password (w, wd)
     = (Ok {| Wallet.art_id := i;
              Wallet.art_accountId := Wallet._accountId w;
              Wallet.art_email := Wallet._email w;
              Wallet.art_salt := salt;
              Wallet.art_keychainData := c |},
        (Wallet.set_id i w, wd'))).
Proof.
  unfold Wallet.encrypt.
  destruct (isNil kdfParams) eqn:Hk; [left; unfold_monad; eauto|].
  destruct password as [| | | |pw| |]; simpl;
    try (left; unfold_monad; eauto; fail).
  destruct pw as [|a pw]; simpl; [left; unfold_monad; eauto|].
  unfold_monad.
  destruct (crypto_randomBytes_base64 16 wd) as [[salt|e] wd1] eqn:Hs;
    [|left; eauto].
  unfold Wallet.email. simpl.
  destruct (crypto_calculateMasterKey _ _ _ _) as [mk|e] eqn:Hm;
    [|left; eauto].
  destruct (crypto_encryptData _ _ wd1) as [[c|e] wd'] eqn:Hc;
    [|left; eauto].
  right. exists (String a pw), salt, wd1, mk, c, wd'.
  repeat split; try done.
Qed.

Lemma encryptRecoveryData_receiver kdfParams rk w wd :
  fst (snd (Wallet.encryptRecoveryData kdfParams rk (w, wd))) = w.
Proof.
  unfold Wallet.encryptRecoveryData. unfold_monad.
  destruct (Wallet.recoveryWallet w rk) as [rw|e]; [|done].
  by destruct (Wallet.encrypt _ _ (rw, wd)) as [o s'].
Qed.

(** The receiver after any call: untouched, or with a new string id, or
    with a new clock difference. *)
Lemma run_receiver c w wd :
  let w' := fst (snd (run c (w, wd))) in
  w' = w \/
  (exists i, w' = Wallet.set_id (VStr i) w) \/
  (exists d, w' = Wallet.set_clockDiff d w).
Proof.
  destruct c as [uri|kdfParams password|kdfParams rk|timestamp];
    simpl; unfold forget.
  - left. pose proof (signRequest_receiver uri w wd) as H.
    by destruct (Wallet.signRequest uri (w, wd)) as [[?|?] ?].
  - destruct (encrypt_cases kdfParams password w wd)
      as [(e & wd' & ->)|(pw & salt & wd1 & mk & c & wd' & _ & _ & _ & _ & _ & _ & ->)];
      simpl; eauto.
  - left. pose proof (encryptRecoveryData_receiver kdfParams rk w wd) as H.
    by destruct (Wallet.encryptRecoveryData kdfParams rk (w, wd)) as [[?|?] ?].
  - destruct (synchronizeTime_receiver timestamp w wd) as [H|(ts & _ & ->)];
      simpl; eauto.
Qed.

Lemma run_throw_receiver c w wd e s' :
  run c (w, wd) = (Throw e, s') -> fst s' = w.
Proof.
  destruct c as [uri|kdfParams password|kdfParams rk|timestamp];
    simpl; unfold forget; intros H.
  - pose proof (signRequest_receiver uri w wd) as Hr.
    destruct (Wallet.signRequest uri (w, wd)) as [[?|?] ?]; by simplify_eq.
  - destruct (encrypt_cases kdfParams password w wd)
      as [(e' & wd' & He)|(pw & salt & wd1 & mk & c & wd' & _ & _ & _ & _ & _ & _ & He)];
      rewrite He in H; by simplify_eq.
  - pose proof (encryptRecoveryData_receiver kdfParams rk w wd) as Hr.
    destruct (Wallet.encryptRecoveryData kdfParams rk (w, wd)) as [[?|?] ?];
      by simplify_eq.
  - destruct (synchronizeTime_receiver timestamp w wd) as [Hr|(ts & _ & Hr)];
      rewrite H in Hr; by simplify_eq.
Qed.

Lemma reachable_checked w : reachable w -> checked w.
Proof.
  induction 1 as [email keypair accountId walletId w H|c w wd _ IH].
  - apply constructor_ok_inv in H as (He & Ha & Hi & <- & <- & <- & _).
    repeat split; try done.
    intros Ht. rewrite Ht in Hi. by destruct (isString (Wallet._id w)).
  - destruct IH as (He & Ha & Hi).
    destruct (run_receiver c w wd) as [->|[[i ->]|[d ->]]]; by repeat split.
Qed.

(** ** Encryption and decryption *)

(** What [fromEncrypted] makes of what [encrypt] returned. *)
Lemma fromEncrypted_encrypt kdfParams password w wd art s' :
  decrypt_inverts_encrypt -> json_round_trip -> fromSecret_inverts_secret ->
  isNil (Wallet._email w) = false ->
  Keypair_isValidPublicKey (Wallet._accountId w) = true ->
  Wallet.encrypt kdfParams password (w, wd) = (Ok art, s') ->
  exists k',
    Keypair_secret k' = Keypair_secret (Wallet._keypair w) /\
    forall wd2,
      Wallet.fromEncrypted (Wallet.art_keychainData art) kdfParams
        (VStr (Wallet.art_salt art)) (Wallet._email w) password wd2
      = (Ok {| Wallet._email := Wallet.art_email art; Wallet._keypair := k';
               Wallet._accountId := Wallet.art_accountId art;
               Wallet._id := Wallet.art_id art; Wallet._clockDiff := 0 |}, wd2).
Proof.
  intros Hdec Hjson Hkp He Ha Henc.
  destruct (encrypt_cases kdfParams password w wd)
    as [(e & wd' & H)|(pw & salt & wd1 & mk & c & wd' & -> & _ & _ & _ & Hmk & Hc & H)];
    rewrite H in Henc; simplify_eq; simpl.
  destruct (Hkp (Wallet._keypair w)) as (k' & Hk' & Hsec).
  exists k'. split; [done|]. intros wd2.
  unfold Wallet.fromEncrypted, bind, pure.
  rewrite Hmk, (Hdec _ _ _ _ _ Hc).
  unfold Wallet.rawKeychainData, Wallet.accountId.
  rewrite (Hjson _ _ Ha). simpl. rewrite Hk'.
  rewrite constructor_keypair; try done.
  simpl. apply andb_false_r.
Qed.

(** C1: if [encrypt(kdfParams, password)] on a wallet [w] returns the
    artifact [{id, accountId, email, salt, keychainData}], then
    [fromEncrypted(keychainData, kdfParams, salt, w.email, password)]
    returns a wallet with the artifact's accountId, email and id (the
    [id] getter returns it when it is a non-empty string) and with the
    secret seed of [w].  The imports are used under their contracts:
    decryption inverts encryption, the keychain survives JSON, and a
    keypair is rebuilt from its seed. *)
Theorem encrypt_fromEncrypted_round_trip kdfParams password w wd art s' :
  decrypt_inverts_encrypt -> json_round_trip -> fromSecret_inverts_secret ->
  reachable w ->
  Wallet.encrypt kdfParams password (w, wd) = (Ok art, s') ->
  forall wd2, exists w2,
    Wallet.fromEncrypted (Wallet.art_keychainData art) kdfParams
      (VStr (Wallet.art_salt art)) (Wallet.email w) password wd2
    = (Ok w2, wd2) /\
    Wallet.accountId w2 = Wallet.art_accountId art /\
    Wallet.email w2 = Wallet.art_email art /\
    Wallet._id w2 = Wallet.art_id art /\
    (truthy (Wallet.art_id art) = true ->
     Wallet.id w2 = Ok (Wallet.art_id art)) /\
    Wallet.secretSeed w2 = Wallet.secretSeed w.
Proof.
  intros Hdec Hjson Hkp Hw Henc wd2.
  destruct (reachable_checked w Hw) as (He & Ha & _).
  destruct (fromEncrypted_encrypt _ _ _ _ _ _ Hdec Hjson Hkp He Ha Henc)
    as (k' & Hsec & Hfrom).
  eexists. split; [apply Hfrom|].
  unfold Wallet.id, Wallet.secretSeed. simpl.
  repeat split; try done. by intros ->.
Qed.

(** C2: the artifact of [w.encryptRecoveryData(kdfParams, r)], decrypted
    by [fromEncrypted] with [r]'s secret seed as the password, gives a
    wallet with the secret seed of [w] (so not [r]'s seed, when the two
    differ); its account id is the one of [r]. *)
Theorem recovery_data_decrypts_to_primary_seed kdfParams rk w wd art s' :
  decrypt_inverts_encrypt -> json_round_trip -> fromSecret_inverts_secret ->
  Wallet.encryptRecoveryData kdfParams rk (w, wd) = (Ok art, s') ->
  forall wd2, exists w2,
    Wallet.fromEncrypted (Wallet.art_keychainData art) kdfParams
      (VStr (Wallet.art_salt art)) (Wallet.art_email art)
      (VStr (Keypair_secret rk)) wd2
    = (Ok w2, wd2) /\
    Wallet.art_email art = Wallet.email w /\
    Wallet.secretSeed w2 = Wallet.secretSeed w /\
    (Wallet.secretSeed w <> Keypair_secret rk ->
     Wallet.secretSeed w2 <> Keypair_secret rk) /\
    Wallet.accountId w2 = VStr (Keypair_accountId rk).
Proof.
  intros Hdec Hjson Hkp Henc wd2.
  unfold Wallet.encryptRecoveryData in Henc. unfold_monad.
  destruct (Wallet.recoveryWallet w rk) as [rw|e] eqn:Hrw; [|discriminate].
  destruct (Wallet.encrypt _ _ (rw, wd)) as [o s1] eqn:Hrenc.
  simplify_eq.
  unfold Wallet.recoveryWallet in Hrw.
  pose proof (constructor_keypair_inv _ _ _ _ _ Hrw) as Hk.
  apply constructor_ok_inv in Hrw as (He & Ha & _ & Hemail & Hacc & _ & _).
  rewrite <- Hemail in He. rewrite <- Hacc in Ha.
  destruct (fromEncrypted_encrypt _ _ _ _ _ _ Hdec Hjson Hkp He Ha Hrenc)
    as (k' & Hsec & Hfrom).
  assert (Wallet.art_email art = Wallet._email rw /\
          Wallet.art_accountId art = Wallet._accountId rw) as [Hae Haa].
  { destruct (encrypt_cases kdfParams (VStr (Keypair_secret rk)) rw wd)
      as [(e & wd' & H)|(pw & salt & wd1 & mk & c & wd' & _ & _ & _ & _ & _ & _ & H)];
      rewrite H in Hrenc; by simplify_eq. }
  eexists. split; [rewrite Hae; apply Hfrom|].
  unfold Wallet.secretSeed, Wallet.accountId, Wallet.email in *. simpl.
  rewrite Hsec, Hk, Hae, Haa, Hemail, Hacc. by repeat split.
Qed.

(** ** The signed payload *)

Lemma quotes_app s1 s2 : quotes (s1 +:+ s2) = quotes s1 + quotes s2.
Proof. induction s1 as [|a s1 IH]; simpl; [done|]. rewrite IH. lia. Qed.

(** Two tails that open with a quote and hold as many quotes start at the
    same place. *)
Lemma app_quoted_tail_inj u1 u2 t1 t2 :
  starts_with_quote t1 -> starts_with_quote t2 ->
  quotes t1 = quotes t2 ->
  u1 +:+ t1 = u2 +:+ t2 ->
  u1 = u2 /\ t1 = t2.
Proof.
  intros [t1' ->] [t2' ->]. revert u2.
  induction u1 as [|a u1 IH]; intros [|b u2] Hq H; simpl in *.
  - done.
  - simplify_eq. rewrite quotes_app in Hq. simpl in Hq. lia.
  - simplify_eq. rewrite quotes_app in Hq. simpl in Hq. lia.
  - injection H as -> H. by destruct (IH u2 Hq H) as [-> ->].
Qed.

Lemma quotes_string_of_uint d : quotes (NilEmpty.string_of_uint d) = 0.
Proof. induction d; simpl; done. Qed.

Lemma quotes_Number_toString n : quotes (Wallet.Number_toString n) = 0.
Proof.
  unfold Wallet.Number_toString, NilZero.string_of_int, NilZero.string_of_uint.
  destruct (Z.to_int n) as [d|d]; destruct d; simpl;
    try done; apply quotes_string_of_uint.
Qed.

Lemma Number_toString_inj n1 n2 :
  Wallet.Number_toString n1 = Wallet.Number_toString n2 -> n1 = n2.
Proof.
  unfold Wallet.Number_toString. intros H.
  apply DecimalZ.to_int_inj.
  assert (forall n, NilZero.int_of_string (NilZero.string_of_int (Z.to_int n))
                    = Some (Z.to_int n)) as Hisi.
  { intros n. apply NilZero.isi; destruct n; simpl; try discriminate;
      intros [= Hp]; by apply DecimalPos.Unsigned.to_uint_nonnil in Hp. }
  pose proof (Hisi n1) as H1. rewrite H, Hisi in H1. by simplify_eq.
Qed.

(** C7: the string that [signRequest] hashes and signs determines the
    uri and the expiry: if the signature bases built for [(uri1,
    validUntil1)] and [(uri2, validUntil2)] are equal, then [uri1 = uri2]
    and [validUntil1 = validUntil2]. *)
Theorem signatureBase_injective uri1 uri2 validUntil1 validUntil2 :
  Wallet.signatureBase uri1 (Wallet.Number_toString validUntil1)
  = Wallet.signatureBase uri2 (Wallet.Number_toString validUntil2) ->
  uri1 = uri2 /\ validUntil1 = validUntil2.
Proof.
  unfold Wallet.signatureBase. intros H. simpl in H. simplify_eq.
  apply app_quoted_tail_inj in H as [-> H].
  - split; [done|]. simpl in H. simplify_eq.
    apply Number_toString_inj.
    by apply (app_quoted_tail_inj _ _ "'}" "'}");
      [eexists|eexists|done|].
  - by eexists.
  - by eexists.
  - simpl. by rewrite !quotes_app, !quotes_Number_toString.
Qed.

(** ** The account id of a wallet *)

(** C3 (as the code has it): the constructor checks the account id for
    being well formed ([Keypair.isValidPublicKey]) and never compares it
    with the keypair: every wallet has a well-formed account id, a
    malformed one is rejected, and any well-formed one is accepted with
    any keypair.  The wallets of [generate] and [fromRecoverySeed] carry
    the address of their own keypair; the wallet that
    [encryptRecoveryData] builds carries the primary keypair with the
    address of the recovery keypair. *)
Theorem accountId_is_checked_for_form_only :
  (forall w, reachable w ->
     Keypair_isValidPublicKey (Wallet.accountId w) = true) /\
  (forall email keypair accountId walletId,
     Keypair_isValidPublicKey accountId = false ->
     exists e, Wallet.constructor email keypair accountId walletId = Throw e) /\
  (forall email k accountId,
     isNil email = false ->
     Keypair_isValidPublicKey accountId = true ->
     exists w,
       Wallet.constructor email (VKeypair k) accountId VUndefined = Ok w /\
       Wallet.keypair w = k /\ Wallet.accountId w = accountId) /\
  (forall email wd w wd',
     Wallet.generate email wd = (Ok w, wd') ->
     Wallet.accountId w = VStr (Keypair_accountId (Wallet.keypair w))) /\
  (forall kdfParams salt email recoverySeed wd w wd',
     Wallet.fromRecoverySeed kdfParams salt email recoverySeed wd = (Ok w, wd') ->
     Wallet.accountId w = VStr (Keypair_accountId (Wallet.keypair w))) /\
  (forall w recoveryKeypair rw,
     Wallet.recoveryWallet w recoveryKeypair = Ok rw ->
     Wallet.keypair rw = Wallet.keypair w /\
     Wallet.accountId rw = VStr (Keypair_accountId recoveryKeypair)).
Proof.
  repeat split.
  - intros w Hw. by destruct (reachable_checked w Hw) as (_ & Ha & _).
  - intros email keypair accountId walletId Ha. unfold Wallet.constructor.
    rewrite Ha. simpl. repeat case_match; eauto.
  - intros email k accountId He Ha. eexists.
    by rewrite constructor_keypair.
  - intros email wd w wd' H. unfold Wallet.generate in H. unfold_monad.
    destruct (Keypair_random wd) as [[k|e] wd1]; [|discriminate].
    simplify_eq.
    match goal with H : Wallet.constructor _ _ _ _ = _ |- _ =>
      pose proof (constructor_keypair_inv _ _ _ _ _ H) as Hk;
      apply constructor_ok_inv in H as (_ & _ & _ & _ & Hacc & _)
    end.
    unfold Wallet.accountId, Wallet.keypair. by rewrite Hacc, Hk.
  - intros kdfParams salt email recoverySeed wd w wd' H.
    unfold Wallet.fromRecoverySeed, Wallet.deriveId in H. unfold_monad.
    destruct (Keypair_fromSecret recoverySeed) as [k|e]; [|discriminate].
    destruct (crypto_calculateMasterKey _ _ _ _) as [mk|e]; [|discriminate].
    simplify_eq.
    match goal with H : Wallet.constructor _ _ _ _ = _ |- _ =>
      pose proof (constructor_keypair_inv _ _ _ _ _ H) as Hk;
      apply constructor_ok_inv in H as (_ & _ & _ & _ & Hacc & _)
    end.
    unfold Wallet.accountId, Wallet.keypair. by rewrite Hacc, Hk.
  - unfold Wallet.recoveryWallet in *. by eapply constructor_keypair_inv.
  - unfold Wallet.recoveryWallet in *.
    match goal with H : Wallet.constructor _ _ _ _ = _ |- _ =>
      apply constructor_ok_inv in H as (_ & _ & _ & _ & Hacc & _)
    end.
    done.
Qed.

(** ** The wallet id *)

Lemma provider_imports_deterministic : deterministic_imports provider_imports.
Proof. repeat split; intros; by eexists. Qed.

Lemma deriveId_provider_imports email password kdfParams salt wd :
  deriveId_io provider_imports email password kdfParams salt wd
  = Wallet.deriveId email password kdfParams salt wd.
Proof.
  unfold deriveId_io, Wallet.deriveId, bind, pure, ret. simpl.
  by destruct (crypto_calculateMasterKey salt email password kdfParams).
Qed.

(** C4: [deriveId] is deterministic.  Whatever the key derivation, the
    wallet-id derivation and the hex codec do, as long as each of them
    is deterministic, [deriveId] called on the same email, password,
    kdfParams and salt gives the same result in every state of the world
    (clock, entropy, console) and leaves the world as it found it: it
    draws nothing, reads no clock and keeps nothing between calls.
    [Wallet.deriveId] is this function at the imports of [Provider]. *)
Theorem deriveId_deterministic (I : deriveId_imports)
    email password kdfParams salt :
  deterministic_imports I ->
  deterministic (deriveId_io I email password kdfParams salt) /\
  forall wd,
    Wallet.deriveId email password kdfParams salt wd
    = deriveId_io provider_imports email password kdfParams salt wd.
Proof.
  intros (Hkdf & Hid & Hhex). split; [|by intros wd; rewrite deriveId_provider_imports].
  destruct (Hkdf salt email password kdfParams) as [[mk|e] Hmk].
  - destruct (Hid mk) as [[i|e] Hi].
    + destruct (Hhex i) as [r Hr]. exists r. intros wd.
      unfold deriveId_io, bind. by rewrite Hmk, Hi, Hr.
    + exists (Throw e). intros wd. unfold deriveId_io, bind.
      by rewrite Hmk, Hi.
  - exists (Throw e). intros wd. unfold deriveId_io, bind. by rewrite Hmk.
Qed.

(** C5 (as the code has it): the wallet id is changed by [encrypt] and
    by nothing else.  A successful [encrypt] stores the id it returns,
    which is [deriveId] of the wallet's email, the password, the
    kdfParams and the salt of this call, whatever id the wallet had; any
    other call, and any call that throws, leaves the id as it was. *)
Theorem walletId_is_set_by_every_encrypt w wd :
  (forall kdfParams password art s',
     Wallet.encrypt kdfParams password (w, wd) = (Ok art, s') ->
     Wallet._id (fst s') = Wallet.art_id art /\
     forall wd0, exists i,
       Wallet.deriveId (Wallet.email w) password kdfParams
         (VStr (Wallet.art_salt art)) wd0 = (Ok i, wd0) /\
       Wallet.art_id art = VStr i) /\
  (forall c,
     (forall kdfParams password, c <> CallEncrypt kdfParams password) ->
     Wallet._id (fst (snd (run c (w, wd)))) = Wallet._id w) /\
  (forall c e s',
     run c (w, wd) = (Throw e, s') -> Wallet._id (fst s') = Wallet._id w).
Proof.
  repeat split.
  - destruct (encrypt_cases kdfParams password w wd)
      as [(e & wd' & He)|(pw & salt & wd1 & mk & c & wd' & _ & _ & _ & _ & _ & _ & He)];
      rewrite He in H; by simplify_eq.
  - destruct (encrypt_cases kdfParams password w wd)
      as [(e & wd' & He)|(pw & salt & wd1 & mk & c & wd' & _ & _ & _ & _ & Hmk & _ & He)];
      rewrite He in H; simplify_eq.
    intros wd0. eexists. unfold Wallet.deriveId, Wallet.email. unfold_monad.
    by rewrite Hmk.
  - intros c Hc. destruct c as [uri|kdfParams password|kdfParams rk|timestamp].
    + simpl. unfold forget.
      pose proof (signRequest_receiver uri w wd) as Hr.
      destruct (Wallet.signRequest uri (w, wd)) as [[?|?] ?]; simpl in *;
        by subst.
    + by destruct (Hc kdfParams password).
    + simpl. unfold forget.
      pose proof (encryptRecoveryData_receiver kdfParams rk w wd) as Hr.
      destruct (Wallet.encryptRecoveryData kdfParams rk (w, wd)) as [[?|?] ?];
        simpl in *; by subst.
    + simpl.
      destruct (synchronizeTime_receiver timestamp w wd) as [->|(ts & _ & ->)];
        done.
  - intros c e s' H. by rewrite (run_throw_receiver _ _ _ _ _ H).
Qed.


(** ** Failed calls *)

(** C9: a call that throws leaves the wallet (email, keypair, accountId,
    walletId, clockOffset) as it was: [encrypt] with nil kdfParams or a
    password that is not a non-empty string, [signRequest] with an
    empty uri and [synchronizeTime] with a nil or non-numeric timestamp
    all throw with the wallet and the world unchanged, and so does every
    other call that throws. *)
Theorem failed_call_leaves_wallet_unchanged w wd :
  (forall kdfParams password,
     isNil kdfParams = true \/ isString password = false \/ password = VStr "" ->
     exists e, Wallet.encrypt kdfParams password (w, wd) = (Throw e, (w, wd))) /\
  (exists e, Wallet.signRequest "" (w, wd) = (Throw e, (w, wd))) /\
  (forall timestamp,
     isNil timestamp = true \/ isNumber timestamp = false ->
     exists e, Wallet.synchronizeTime timestamp (w, wd) = (Throw e, (w, wd))) /\
  (forall c e s', run c (w, wd) = (Throw e, s') -> fst s' = w).
Proof.
  repeat split.
  - intros kdfParams password H. unfold Wallet.encrypt, throw.
    destruct (isNil kdfParams); [by eexists|].
    destruct H as [H|[H|H]]; [done| |subst]; simpl.
    + rewrite H. by eexists.
    + by eexists.
  - by eexists.
  - intros timestamp H. unfold Wallet.synchronizeTime, throw.
    destruct (isNil timestamp); [by eexists|].
    destruct H as [H|H]; [done|]. rewrite H. by eexists.
  - intros c e s'. apply run_throw_receiver.
Qed.

(** ** Request signing *)

Lemma Qfloor_plus_Z x n : Qfloor (x + inject_Z n) = (Qfloor x + n)%Z.
Proof.
  destruct x as [a b]. unfold Qfloor, Qplus, inject_Z. simpl.
  rewrite Z.mul_1_r, Pos.mul_1_r. apply Z.div_add. lia.
Qed.

Lemma Qfloor_minus_Z x n : Qfloor (x - inject_Z n) = (Qfloor x - n)%Z.
Proof.
  unfold Qminus. rewrite <- inject_Z_opp, Qfloor_plus_Z. lia.
Qed.

(** C6 (as the code has it): for a non-empty uri, [signRequest(uri)]
    returns three headers: the expiry [validUntil], the account id of
    the wallet's keypair, and the base64 signature of the hash of the
    payload that holds the uri and [validUntil]; the payload is also
    written to the console.  The expiry is
    [floor(floor(now) - clockOffset + 60)] in JavaScript numbers, [now]
    being the local clock in seconds: the clock is cut to whole seconds
    before the offset is taken off.  Where this arithmetic is exact in
    doubles it is [floor(floor(now) - clockOffset) + 60], printed in
    digits, and when moreover the offset is a whole number of seconds
    (as it is until the first [synchronizeTime]) it is
    [floor(now - clockOffset) + 60].  With an empty uri the call
    throws. *)
Theorem signRequest_headers w wd :
  (forall uri, uri <> "" ->
     exists validUntil : string,
       let base := Wallet.signatureBase uri validUntil in
       Wallet.signRequest uri (w, wd)
       = (Ok {| Wallet.X_AuthValidUnTillTimestamp := validUntil;
                Wallet.X_AuthPublicKey := Keypair_accountId (Wallet.keypair w);
                Wallet.X_AuthSignature :=
                  toXDR_base64
                    (Keypair_signDecorated (Wallet.keypair w) (hash base)) |},
          (w, {| clock_ms := clock_ms wd; entropy := entropy wd;
                 cursor := cursor wd; console := base :: console wd |})) /\
       (in_Date_range (clock_ms wd) ->
        exact_in_doubles (clock_ms wd / 1000) (Wallet._clockDiff w) ->
        validUntil
        = Wallet.Number_toString
            (Qfloor (inject_Z (clock_ms wd / 1000) - Wallet._clockDiff w) + 60) /\
        (forall z, Wallet._clockDiff w == inject_Z z ->
           validUntil
           = Wallet.Number_toString
               (Qfloor ((clock_ms wd # 1000) - Wallet._clockDiff w) + 60)))) /\
  Wallet.signRequest "" (w, wd) = (Throw (Error "URI required."), (w, wd)).
Proof.
  split; [|done].
  intros uri Huri.
  exists (Wallet.Number_toString
            (Qfloor (inject_Z (Qfloor (clock_ms wd # 1000)) - Wallet._clockDiff w
                     + inject_Z Wallet.SIGNATURE_VALID_SEC))).
  split.
  - unfold Wallet.signRequest. apply String.eqb_neq in Huri. by rewrite Huri.
  - intros _ _. unfold Wallet.SIGNATURE_VALID_SEC.
    change (Qfloor (clock_ms wd # 1000)) with (clock_ms wd / 1000)%Z.
    rewrite Qfloor_plus_Z. split; [done|].
    intros z Hz. f_equal.
    change (clock_ms wd / 1000)%Z with (Qfloor (clock_ms wd # 1000)).
    rewrite Hz, !Qfloor_minus_Z, Qfloor_Z. done.
Qed.

(** ** Construction *)

(** C8 (as the code has it): the constructor throws exactly when the
    email is nil ([null] or [undefined]; the empty string passes), or
    the keypair is neither a Keypair nor a string that
    [Keypair.isValidSecretKey] accepts, or the account id fails
    [Keypair.isValidPublicKey], or the wallet id is truthy and not a
    string (no string is refused for not being hex).  Otherwise it
    returns the wallet with the given email, account id and wallet id, a
    zero clock difference, and the given or parsed keypair. *)
Theorem constructor_validation email keypair accountId walletId :
  valid_seed_parses ->
  ((exists e, Wallet.constructor email keypair accountId walletId = Throw e)
   <->
   (isNil email = true \/
    match keypair with
    | VStr seed => Keypair_isValidSecretKey seed = false
    | VKeypair _ => False
    | _ => True
    end \/
    Keypair_isValidPublicKey accountId = false \/
    (truthy walletId = true /\ isString walletId = false))) /\
  (forall w,
     Wallet.constructor email keypair accountId walletId = Ok w ->
     Wallet.email w = email /\ Wallet.accountId w = accountId /\
     Wallet._id w = walletId /\ Wallet._clockDiff w = 0%Q /\
     match keypair with
     | VStr seed => Keypair_fromSecret (VStr seed) = Ok (Wallet.keypair w)
     | VKeypair k => Wallet.keypair w = k
     | _ => False
     end).
Proof.
  intros Hseed. split; [split|].
  - intros [e H]. unfold Wallet.constructor in H.
    destruct (isNil email); [by left|]. right.
    destruct (Keypair_isValidPublicKey accountId); [|by right; left].
    destruct (truthy walletId), (isString walletId); simpl in H;
      try (by right; right);
      (left; destruct keypair as [| | | |seed|k|]; try done; simpl in H;
       destruct (Keypair_isValidSecretKey seed) eqn:Hs; [|done];
       apply Hseed in Hs; simpl in H;
       by destruct (Keypair_fromSecret (VStr seed))).
  - intros H. unfold Wallet.constructor.
    destruct (isNil email); [by eexists|].
    destruct H as [H|[H|[H|[H1 H2]]]]; [done| | |].
    + destruct keypair as [| | | |seed|k|]; simpl; try done; try by eexists.
      rewrite H. by eexists.
    + rewrite H. simpl. repeat case_match; by eexists.
    + rewrite H1, H2. simpl. repeat case_match; by eexists.
  - intros w H.
    pose proof (constructor_ok_inv _ _ _ _ _ H) as (_ & _ & _ & He & Ha & Hi & Hc).
    unfold Wallet.email, Wallet.accountId, Wallet.keypair.
    repeat split; try done.
    clear He Ha Hi Hc. unfold Wallet.constructor in H.
    destruct (isNil email); [done|].
    destruct keypair as [| | | |seed|k|]; simpl in H; try done.
    + destruct (Keypair_isValidSecretKey seed); simpl in H; [|done].
      destruct (Keypair_fromSecret (VStr seed)) as [k|]; [|done].
      repeat case_match; by simplify_eq.
    + repeat case_match; by simplify_eq.
Qed.

End Properties.

(** * Further properties of the wallet *)

Section Further.
Context `{P : Provider}.

(** ** What calls keep *)

(** Email, keypair (hence the secret seed and the public key sent by
    [signRequest]) and account id are fixed at construction: no sequence
    of [signRequest], [encrypt], [encryptRecoveryData] and
    [synchronizeTime] calls, failed or not, changes them. *)
Theorem calls_keep_email_keypair_accountId w w' :
  evolves w w' ->
  Wallet.email w' = Wallet.email w /\
  Wallet.keypair w' = Wallet.keypair w /\
  Wallet.accountId w' = Wallet.accountId w /\
  Wallet.secretSeed w' = Wallet.secretSeed w.
Proof.
  unfold Wallet.email, Wallet.keypair, Wallet.accountId, Wallet.secretSeed.
  induction 1 as [|c w' wd _ (He & Hk & Ha & Hs)]; [done|].
  destruct (run_receiver c w' wd) as [->|[[i ->]|[d ->]]]; by simpl.
Qed.

(** The clock difference is changed by a successful [synchronizeTime]
    only: if a call leaves the wallet with another clock difference, it
    was [synchronizeTime] with a number, it returned, and it changed
    nothing else in the wallet and nothing in the world. *)
Theorem clockDiff_changes_by_synchronizeTime_only c w wd :
  Wallet._clockDiff (fst (snd (run c (w, wd)))) <> Wallet._clockDiff w ->
  exists ts d,
    c = CallSynchronizeTime (VNum ts) /\
    run c (w, wd) = (Ok tt, (Wallet.set_clockDiff d w, wd)).
Proof.
  intros Hd. destruct c as [uri|kdfParams password|kdfParams rk|timestamp].
  - destruct Hd. simpl. unfold forget.
    pose proof (signRequest_receiver uri w wd) as Hr.
    destruct (Wallet.signRequest uri (w, wd)) as [[?|?] ?]; simpl in *;
      by subst.
  - destruct Hd. simpl. unfold forget.
    destruct (encrypt_cases kdfParams password w wd)
      as [(e & wd' & ->)|(pw & salt & wd1 & mk & c & wd' & _ & _ & _ & _ & _ & _ & ->)];
      done.
  - destruct Hd. simpl. unfold forget.
    pose proof (encryptRecoveryData_receiver kdfParams rk w wd) as Hr.
    destruct (Wallet.encryptRecoveryData kdfParams rk (w, wd)) as [[?|?] ?];
      simpl in *; by subst.
  - simpl in *.
    destruct (synchronizeTime_receiver timestamp w wd) as [Hr|(ts & -> & Hr)].
    + by rewrite Hr in Hd.
    + by exists ts, ((clock_ms wd # 1000) - ts)%Q.
Qed.

(** On a wallet a program can hold, the [id] getter returns nothing but
    a non-empty string: whatever falsy value the constructor let through
    as wallet id (the empty string, [0], [false], [null]) makes it
    throw. *)
Theorem id_getter_returns_non_empty_strings w v :
  reachable w ->
  Wallet.id w = Ok v ->
  exists s, v = VStr s /\ s <> "" /\ Wallet._id w = VStr s.
Proof.
  intros Hw Hid. destruct (reachable_checked w Hw) as (_ & _ & Hi).
  unfold Wallet.id in Hid.
  destruct (truthy (Wallet._id w)) eqn:Ht; [|discriminate].
  simpl in Hid. simplify_eq.
  specialize (Hi eq_refl).
  destruct (Wallet._id w) as [| | | |s| |]; try discriminate.
  exists s. repeat split. intros ->. discriminate.
Qed.

(** ** Expiry times *)

(** What a call of [signRequest] with a non-empty uri returns. *)
Lemma signRequest_run uri w wd :
  uri <> "" ->
  let validUntil :=
    Wallet.Number_toString
      (Qfloor (inject_Z (Qfloor (clock_ms wd # 1000)) - Wallet._clockDiff w
               + inject_Z Wallet.SIGNATURE_VALID_SEC)) in
  let base := Wallet.signatureBase uri validUntil in
  Wallet.signRequest uri (w, wd)
  = (Ok {| Wallet.X_AuthValidUnTillTimestamp := validUntil;
           Wallet.X_AuthPublicKey := Keypair_accountId (Wallet._keypair w);
           Wallet.X_AuthSignature :=
             toXDR_base64 (Keypair_signDecorated (Wallet._keypair w) (hash base)) |},
     (w, {| clock_ms := clock_ms wd; entropy := entropy wd;
            cursor := cursor wd; console := base :: console wd |})).
Proof.
  intros Huri. unfold Wallet.signRequest.
  apply String.eqb_neq in Huri. by rewrite Huri.
Qed.



(** ** Wallets from a server or from a recovery seed *)

(** [fromEncrypted] leaves the world as it was, whether it returns or
    throws.  The wallet it returns has the email it was given and no
    clock difference; its id is [deriveId] of the same email, password,
    kdfParams and salt; and its keypair and account id are those of the
    keychain that the wallet key decrypts: nothing is returned unless
    decryption, parsing and the seed and account-id checks all
    succeeded. *)
Theorem fromEncrypted_wallet keychainData kdfParams salt email password wd :
  snd (Wallet.fromEncrypted keychainData kdfParams salt email password wd) = wd /\
  forall w,
    fst (Wallet.fromEncrypted keychainData kdfParams salt email password wd)
    = Ok w ->
    Wallet.email w = email /\
    isNil email = false /\
    Wallet._clockDiff w = 0%Q /\
    (exists i,
       Wallet.deriveId email password kdfParams salt wd = (Ok i, wd) /\
       Wallet._id w = VStr i) /\
    (exists masterKey plain keychain seed,
       crypto_calculateMasterKey salt email password kdfParams = Ok masterKey /\
       crypto_decryptData keychainData (crypto_deriveWalletKey masterKey)
       = Ok plain /\
       JSON_parse plain = Ok keychain /\
       prop keychain "seed" = Ok seed /\
       Keypair_fromSecret seed = Ok (Wallet.keypair w) /\
       prop keychain "accountId" = Ok (Wallet.accountId w) /\
       Keypair_isValidPublicKey (Wallet.accountId w) = true).
Proof.
  unfold Wallet.fromEncrypted, Wallet.deriveId, bind, pure, ret.
  destruct (crypto_calculateMasterKey salt email password kdfParams)
    as [mk|e] eqn:Hmk; [|by split].
  destruct (crypto_decryptData keychainData (crypto_deriveWalletKey mk))
    as [plain|e] eqn:Hdec; [|by split].
  destruct (JSON_parse plain) as [kc|e] eqn:Hjson; [|by split].
  destruct (prop kc "seed") as [seed|e] eqn:Hseed; [|by split].
  destruct (Keypair_fromSecret seed) as [k|e] eqn:Hk; [|by split].
  destruct (prop kc "accountId") as [a|e] eqn:Ha; [|by split].
  split; [done|]. cbn [fst]. intros w Hw.
  pose proof (constructor_keypair_inv _ _ _ _ _ Hw) as Hkw.
  apply constructor_ok_inv in Hw as (He & Hv & _ & Hwe & Hwa & Hwi & Hwc).
  unfold Wallet.email, Wallet.keypair, Wallet.accountId.
  rewrite Hwe, Hwa, Hwi, Hkw.
  repeat split; try done; [by eexists|].
  exists mk, plain, kc, seed. by repeat split.
Qed.

(** The id under which [encryptRecoveryData] files the recovery data is
    the id of the wallet that [fromRecoverySeed] makes from the recovery
    seed, the salt of the artifact and the wallet's email; that wallet
    has the recovery seed and the email of the artifact.  The wallet
    whose recovery data was made is left as it was. *)
Theorem fromRecoverySeed_finds_recovery_data kdfParams rk w wd art s' :
  fromSecret_inverts_secret -> own_address_is_valid ->
  Wallet.encryptRecoveryData kdfParams rk (w, wd) = (Ok art, s') ->
  fst s' = w /\
  forall wd2, exists rw,
    Wallet.fromRecoverySeed kdfParams (VStr (Wallet.art_salt art))
      (Wallet.email w) (VStr (Keypair_secret rk)) wd2
    = (Ok rw, wd2) /\
    Wallet._id rw = Wallet.art_id art /\
    Wallet.email rw = Wallet.art_email art /\
    Wallet.secretSeed rw = Keypair_secret rk.
Proof.
  intros Hkp Hvalid Henc. split.
  { pose proof (encryptRecoveryData_receiver kdfParams rk w wd) as Hr.
    by rewrite Henc in Hr. }
  unfold Wallet.encryptRecoveryData in Henc. unfold_monad.
  destruct (Wallet.recoveryWallet w rk) as [rw0|e] eqn:Hrw; [|discriminate].
  destruct (Wallet.encrypt _ _ (rw0, wd)) as [o s1] eqn:Hrenc.
  simplify_eq.
  unfold Wallet.recoveryWallet in Hrw.
  apply constructor_ok_inv in Hrw as (He & _ & _ & Hemail & _ & _ & _).
  destruct (encrypt_cases kdfParams (VStr (Keypair_secret rk)) rw0 wd)
    as [(e & wd' & H)|(pw & salt & wd1 & mk & c & wd' & _ & _ & _ & _ & Hmk & _ & H)];
    rewrite H in Hrenc; simplify_eq.
  intros wd2. destruct (Hkp rk) as (k' & Hk' & Hsec).
  unfold Wallet.fromRecoverySeed, Wallet.deriveId, bind, pure, ret.
  unfold Wallet.email in *.
  cbn [Wallet.art_salt Wallet.art_id Wallet.art_email].
  rewrite Hk'. rewrite Hemail in Hmk. rewrite Hmk.
  rewrite constructor_keypair; try done.
  - eexists. split; [reflexivity|]. by repeat split.
  - simpl. apply andb_false_r.
Qed.

(** [generate] draws a keypair first and checks the email after: for an
    email that is not nil (the empty string included) it returns the
    wallet of the drawn keypair and its address, without a wallet id and
    with no clock difference; for a nil email it throws 'Email is
    required.', the keypair being drawn and dropped; and it throws what
    [Keypair.random] throws. *)
Theorem generate_result email wd :
  own_address_is_valid ->
  match Keypair_random wd with
  | (Ok k, wd') =>
      Wallet.generate email wd
      = (if isNil email then Throw (Error "Email is required.")
         else Ok {| Wallet._email := email; Wallet._keypair := k;
                    Wallet._accountId := VStr (Keypair_accountId k);
                    Wallet._id := VUndefined; Wallet._clockDiff := 0 |},
         wd')
  | (Throw e, wd') => Wallet.generate email wd = (Throw e, wd')
  end.
Proof.
  intros Hvalid. unfold Wallet.generate, bind, pure.
  destruct (Keypair_random wd) as [[k|e] wd']; [|done].
  destruct (isNil email) eqn:He.
  - unfold Wallet.constructor. by rewrite He.
  - by rewrite constructor_keypair.
Qed.

(** [fromRecoverySeed] parses the seed, derives the id and only then
    looks at the email: it returns a wallet exactly when the seed
    parses, the key derivation succeeds and the email is not nil, and
    the wallet then has the keypair of the seed, its address, and the id
    [deriveId(email, recoverySeed, kdfParams, salt)]. *)
Theorem fromRecoverySeed_result kdfParams salt email recoverySeed wd :
  own_address_is_valid ->
  snd (Wallet.fromRecoverySeed kdfParams salt email recoverySeed wd) = wd /\
  forall w,
    fst (Wallet.fromRecoverySeed kdfParams salt email recoverySeed wd) = Ok w
    <->
    exists k i,
      Keypair_fromSecret recoverySeed = Ok k /\
      Wallet.deriveId email recoverySeed kdfParams salt wd = (Ok i, wd) /\
      isNil email = false /\
      w = {| Wallet._email := email; Wallet._keypair := k;
             Wallet._accountId := VStr (Keypair_accountId k);
             Wallet._id := VStr i; Wallet._clockDiff := 0 |}.
Proof.
  intros Hvalid.
  unfold Wallet.fromRecoverySeed, Wallet.deriveId, bind, pure, ret.
  destruct (Keypair_fromSecret recoverySeed) as [k|e];
    [|split; [done|]; intros w; split; [done|by intros (? & ? & ? & _)]].
  destruct (crypto_calculateMasterKey salt email recoverySeed kdfParams)
    as [mk|e];
    [|split; [done|]; intros w; split; [done|by intros (? & ? & _ & ? & _)]].
  split; [done|]. intros w. cbn [fst].
  destruct (isNil email) eqn:He.
  - unfold Wallet.constructor. rewrite He.
    split; [done|by intros (? & ? & _ & _ & ? & _)].
  - rewrite constructor_keypair; try done; [|simpl; apply andb_false_r].
    split.
    + intros [= <-]. by do 2 eexists.
    + intros (k' & i & [= <-] & [= <-] & _ & ->). done.
Qed.

(** ** What a call does not look at *)

(** [signRequest] reads the keypair and the clock difference of the
    wallet and nothing else: two wallets that agree on these get the
    same result for the same uri and clock, whatever their email,
    account id and wallet id.  The public key it sends is the address
    of the keypair, also when the wallet's account id is another one. *)
Theorem signRequest_reads_keypair_and_clockDiff_only uri w1 w2 wd :
  Wallet.keypair w1 = Wallet.keypair w2 ->
  Wallet._clockDiff w1 = Wallet._clockDiff w2 ->
  fst (Wallet.signRequest uri (w1, wd)) = fst (Wallet.signRequest uri (w2, wd)) /\
  forall h,
    fst (Wallet.signRequest uri (w1, wd)) = Ok h ->
    Wallet.X_AuthPublicKey h = Keypair_accountId (Wallet.keypair w1).
Proof.
  unfold Wallet.keypair. intros Hk Hd.
  destruct (String.eqb_spec uri "") as [->|Huri]; [done|].
  rewrite !(signRequest_run uri) by done. cbn [fst]. rewrite Hk, Hd.
  split; [done|]. by intros h [= <-].
Qed.

(** [encrypt] does not look at the wallet id or the clock difference the
    wallet has: it returns the same artifact, draws the same entropy and
    stores the same id as on a wallet that never had an id and was never
    synchronised. *)
Theorem encrypt_ignores_id_and_clockDiff kdfParams password w wd i d :
  let w' := Wallet.set_clockDiff d (Wallet.set_id i w) in
  fst (Wallet.encrypt kdfParams password (w', wd))
  = fst (Wallet.encrypt kdfParams password (w, wd)) /\
  snd (snd (Wallet.encrypt kdfParams password (w', wd)))
  = snd (snd (Wallet.encrypt kdfParams password (w, wd))) /\
  Wallet._id (fst (snd (Wallet.encrypt kdfParams password (w', wd))))
  = (if is_ok (fst (Wallet.encrypt kdfParams password (w, wd)))
     then Wallet._id (fst (snd (Wallet.encrypt kdfParams password (w, wd))))
     else i).
Proof.
  cbv zeta.
  destruct (encrypt_cases kdfParams password w wd)
    as [(e & wd' & He)|(pw & salt & wd1 & mk & c & wd' & -> & Hpw & Hk & Hs & Hmk & Hc & He)];
    rewrite He; cbn [fst snd is_ok].
  - unfold Wallet.encrypt in *.
    destruct (isNil kdfParams); [unfold throw in *; by simplify_eq|].
    destruct (negb (isString password) || (str_length password =? 0)%nat);
      [unfold throw in *; by simplify_eq|].
    unfold_monad.
    destruct (crypto_randomBytes_base64 16 wd) as [[salt|e1] wd1];
      [|by simplify_eq].
    unfold Wallet.email in *. simpl in *.
    destruct (crypto_calculateMasterKey _ _ _ _) as [mk|e1]; [|by simplify_eq].
    unfold Wallet.rawKeychainData, Wallet.accountId in *. simpl in *.
    destruct (crypto_encryptData _ _ wd1) as [[c|e1] wd2]; by simplify_eq.
  - unfold Wallet.encrypt. rewrite Hk.
    destruct pw as [|a pw]; [done|]. simpl. unfold_monad.
    rewrite Hs. unfold Wallet.email in *. simpl.
    rewrite Hmk.
    unfold Wallet.rawKeychainData, Wallet.accountId in *. simpl.
    by rewrite Hc.
Qed.

End Further.

(** ** The small provider meets the contracts *)

#[global] Existing Instance Toy.provider.

Lemma toy_decrypt_inverts_encrypt : decrypt_inverts_encrypt .
Proof.
  intros plain key wd c wd' H. simpl in *.
  unfold Toy.encryptData, ret in H. simplify_eq. simpl.
  by rewrite String.eqb_refl.
Qed.

Lemma toy_json_round_trip : json_round_trip .
Proof.
  intros a seed Ha. destruct a as [| | | |s| |]; try discriminate.
  simpl in Ha. apply orb_true_iff in Ha as [Ha|Ha];
    apply String.eqb_eq in Ha; by subst.
Qed.

Lemma toy_fromSecret_inverts_secret : fromSecret_inverts_secret .
Proof. intros [|]; by eexists. Qed.

Lemma toy_valid_seed_parses : valid_seed_parses .
Proof.
  intros seed H. simpl in *. unfold Toy.isValidSecretKey, Toy.fromSecret in *.
  destruct (String.eqb seed "SALICE"); [done|].
  by destruct (String.eqb seed "SBOB").
Qed.

Lemma toy_wallet0_reachable : reachable Toy.wallet0.
Proof.
  by apply (reachable_new (VStr "user@example.com") (VStr "SALICE")
              (VStr "GALICE") VUndefined).
Qed.

(** ** The theorems at concrete wallets *)

Lemma encrypt_fromEncrypted_round_trip_witness :
  exists w2,
    Wallet.fromEncrypted
      (VObject [("key", VStr "0e0/user@example.com/pw12345");
                ("ct", VStr "GALICE:SALICE")])
      Toy.kdf (VStr "0") (VStr "user@example.com") (VStr "pw12345") Toy.world0
    = (Ok w2, Toy.world0) /\
    Wallet.accountId w2 = VStr "GALICE" /\
    Wallet.email w2 = VStr "user@example.com" /\
    Wallet._id w2 = VStr "1d0/user@example.com/pw12345" /\
    (truthy (Keypair := Toy.keypair) (VStr "1d0/user@example.com/pw12345") = true ->
     Wallet.id w2 = Ok (VStr "1d0/user@example.com/pw12345")) /\
    Wallet.secretSeed w2 = "SALICE".
Proof.
  exact (encrypt_fromEncrypted_round_trip Toy.kdf (VStr "pw12345")
           Toy.wallet0 Toy.world0 _ _
           toy_decrypt_inverts_encrypt toy_json_round_trip
           toy_fromSecret_inverts_secret toy_wallet0_reachable
           eq_refl Toy.world0).
Defined.

Lemma recovery_data_decrypts_to_primary_seed_witness :
  exists w2,
    Wallet.fromEncrypted
      (VObject [("key", VStr "0e0/user@example.com/SBOB");
                ("ct", VStr "GBOB:SALICE")])
      Toy.kdf (VStr "0") (VStr "user@example.com") (VStr "SBOB") Toy.world0
    = (Ok w2, Toy.world0) /\
    VStr "user@example.com" = Wallet.email Toy.wallet0 /\
    Wallet.secretSeed w2 = "SALICE" /\
    ("SALICE" <> "SBOB" -> Wallet.secretSeed w2 <> "SBOB") /\
    Wallet.accountId w2 = VStr "GBOB".
Proof.
  exact (recovery_data_decrypts_to_primary_seed Toy.kdf Toy.Bob
           Toy.wallet0 Toy.world0 _ _
           toy_decrypt_inverts_encrypt toy_json_round_trip
           toy_fromSecret_inverts_secret eq_refl Toy.world0).
Defined.

Lemma accountId_is_checked_for_form_only_witness :
  Keypair_isValidPublicKey (Wallet.accountId Toy.wallet0) = true.
Proof.
  exact (proj1 accountId_is_checked_for_form_only Toy.wallet0
           toy_wallet0_reachable).
Defined.

(** The wallet that [encryptRecoveryData] builds for Alice's wallet and
    Bob's recovery keypair passes the constructor with Bob's address and
    Alice's keypair. *)
Lemma recoveryWallet_accountId_differs_from_keypair :
  exists rw,
    Wallet.recoveryWallet Toy.wallet0 Toy.Bob = Ok rw /\
    reachable rw /\
    Wallet.accountId rw = VStr "GBOB" /\
    Keypair_accountId (Wallet.keypair rw) = "GALICE" /\
    Wallet.accountId rw <> VStr (Keypair_accountId (Wallet.keypair rw)).
Proof.
  eexists. split; [reflexivity|]. split; [|by repeat split].
  by apply (reachable_new (P := Toy.provider) (VStr "user@example.com")
              (VKeypair Toy.Alice) (VStr "GBOB") VUndefined).
Qed.

Lemma walletId_is_set_by_every_encrypt_witness :
  Wallet._id (fst (snd (Wallet.encrypt Toy.kdf (VStr "pw12345")
                          (Toy.wallet0, Toy.world0))))
  = VStr "1d0/user@example.com/pw12345".
Proof.
  exact (proj1 (proj1 (walletId_is_set_by_every_encrypt Toy.wallet0 Toy.world0)
                  Toy.kdf (VStr "pw12345") _ _ eq_refl)).
Defined.

(** Two calls of [encrypt] with the same password on one wallet: the
    second draws a new salt and stores another id. *)
Lemma second_encrypt_replaces_walletId :
  let s1 := snd (Wallet.encrypt Toy.kdf (VStr "pw12345")
                   (Toy.wallet0, Toy.world0)) in
  let s2 := snd (Wallet.encrypt Toy.kdf (VStr "pw12345") s1) in
  Wallet._id (fst s1) = VStr "1d0/user@example.com/pw12345" /\
  Wallet._id (fst s2) = VStr "1d1/user@example.com/pw12345" /\
  Wallet._id (fst s2) <> Wallet._id (fst s1).
Proof. by repeat split. Qed.

Lemma signRequest_headers_witness :
  exists validUntil : string,
    fst (Wallet.signRequest "/users"
           (Wallet.set_clockDiff (1 # 2) Toy.wallet0, Toy.world0))
    = Ok {| Wallet.X_AuthValidUnTillTimestamp := validUntil;
            Wallet.X_AuthPublicKey := "GALICE";
            Wallet.X_AuthSignature :=
              "SALICE" +:+ Wallet.signatureBase "/users" validUntil |} /\
    validUntil = "2059".
Proof.
  destruct (proj1 (signRequest_headers
                     (Wallet.set_clockDiff (1 # 2) Toy.wallet0) Toy.world0)
              "/users")
    as (validUntil & Hcall & Hv); [done|].
  exists validUntil. split; [by rewrite Hcall|].
  destruct Hv as [-> _]; [| |reflexivity].
  - unfold in_Date_range. simpl. lia.
  - exists 1%Z, 1%nat. repeat split; try reflexivity. lia.
Defined.

(** A wallet synchronised at 1000.5 s of the local clock with a server
    at 1000 s has a clock difference of half a second.  At 2000.7 s
    [signRequest] gives it the expiry 2059, one less than
    [floor(2000.7 - 0.5) + 60]. *)
Lemma signRequest_floors_the_clock_first :
  let synced :=
    fst (snd (Wallet.synchronizeTime (VNum 1000)
                (Toy.wallet0, Toy.world_at 1000500))) in
  let wd := Toy.world_at 2000700 in
  exists h,
    fst (Wallet.signRequest "/users" (synced, wd)) = Ok h /\
    Wallet.X_AuthValidUnTillTimestamp h = "2059" /\
    Wallet.Number_toString
      (Qfloor ((clock_ms wd # 1000) - Wallet._clockDiff synced) + 60) = "2060".
Proof. eexists. by repeat split. Qed.

Lemma signatureBase_injective_witness :
  "/users" = "/users" /\ 2060%Z = 2060%Z.
Proof.
  exact (signatureBase_injective "/users" "/users" 2060 2060 eq_refl).
Defined.

Lemma constructor_validation_witness :
  Wallet.email Toy.wallet0 = VStr "user@example.com" /\
  Wallet.accountId Toy.wallet0 = VStr "GALICE" /\
  Wallet._id Toy.wallet0 = VUndefined /\
  Wallet._clockDiff Toy.wallet0 = 0%Q /\
  Keypair_fromSecret (VStr "SALICE") = Ok (Wallet.keypair Toy.wallet0).
Proof.
  exact (proj2 (constructor_validation (VStr "user@example.com") (VStr "SALICE")
                  (VStr "GALICE") VUndefined toy_valid_seed_parses)
           Toy.wallet0 eq_refl).
Defined.

(** The constructor takes the empty string for an email, and a wallet id
    that is not hex. *)
Lemma constructor_accepts_empty_email_and_non_hex_id :
  Wallet.constructor (VStr "") (VKeypair Toy.Alice) (VStr "GALICE") VUndefined
  = Ok (@Wallet.Build_t Toy.provider (VStr "") Toy.Alice (VStr "GALICE")
          VUndefined 0) /\
  Wallet.constructor (VStr "user@example.com") (VKeypair Toy.Alice)
    (VStr "GALICE") (VStr "not hex")
  = Ok (@Wallet.Build_t Toy.provider (VStr "user@example.com") Toy.Alice
          (VStr "GALICE") (VStr "not hex") 0).
Proof. by split. Qed.

Lemma failed_call_leaves_wallet_unchanged_witness :
  fst (snd (run (CallSynchronizeTime (VStr "1000")) (Toy.wallet0, Toy.world0)))
  = Toy.wallet0.
Proof.
  exact (proj2 (proj2 (proj2
           (failed_call_leaves_wallet_unchanged Toy.wallet0 Toy.world0)))
           (CallSynchronizeTime (VStr "1000")) _ _ eq_refl).
Defined.


(** ** The further properties at concrete wallets *)

Lemma toy_own_address_is_valid : own_address_is_valid.
Proof. by intros [|]. Qed.

Lemma calls_keep_email_keypair_accountId_witness :
  let w' := fst (snd (run (CallEncrypt Toy.kdf (VStr "pw12345"))
                        (Toy.wallet0, Toy.world0))) in
  Wallet.email w' = VStr "user@example.com" /\
  Wallet.keypair w' = Toy.Alice /\
  Wallet.accountId w' = VStr "GALICE" /\
  Wallet.secretSeed w' = "SALICE".
Proof.
  exact (calls_keep_email_keypair_accountId Toy.wallet0 _
           (evolves_call Toy.wallet0 (CallEncrypt Toy.kdf (VStr "pw12345"))
              Toy.wallet0 Toy.world0 (evolves_refl Toy.wallet0))).
Defined.

Lemma clockDiff_changes_by_synchronizeTime_only_witness :
  exists ts d,
    CallSynchronizeTime (VNum 1000) = CallSynchronizeTime (VNum ts) /\
    run (CallSynchronizeTime (VNum 1000)) (Toy.wallet0, Toy.world_at 1000500)
    = (Ok tt, (Wallet.set_clockDiff d Toy.wallet0, Toy.world_at 1000500)).
Proof.
  apply (clockDiff_changes_by_synchronizeTime_only
           (CallSynchronizeTime (VNum 1000)) Toy.wallet0 (Toy.world_at 1000500)).
  vm_compute. discriminate.
Defined.

Lemma id_getter_returns_non_empty_strings_witness :
  exists s,
    VStr "1d0" = VStr (Keypair := Toy.keypair) s /\ s <> "" /\
    Wallet._id (Wallet.set_id (VStr "1d0") Toy.wallet0) = VStr s.
Proof.
  apply (id_getter_returns_non_empty_strings
           (Wallet.set_id (VStr "1d0") Toy.wallet0) (VStr "1d0")).
  - by apply (reachable_new (P := Toy.provider) (VStr "user@example.com")
                (VKeypair Toy.Alice) (VStr "GALICE") (VStr "1d0")).
  - reflexivity.
Defined.


Lemma fromEncrypted_wallet_witness :
  Wallet.email Toy.wallet0 = VStr "user@example.com" /\
  isNil (Keypair := Toy.keypair) (VStr "user@example.com") = false.
Proof.
  pose proof (proj2 (fromEncrypted_wallet
    (VObject [("key", VStr "0e0/user@example.com/pw12345");
              ("ct", VStr "GALICE:SALICE")])
    Toy.kdf (VStr "0") (VStr "user@example.com") (VStr "pw12345") Toy.world0)
    (Wallet.set_id (VStr "1d0/user@example.com/pw12345") Toy.wallet0) eq_refl)
    as (He & Hn & _).
  split; [exact He|exact Hn].
Defined.

Lemma fromRecoverySeed_finds_recovery_data_witness :
  fst (snd (Wallet.encryptRecoveryData Toy.kdf Toy.Bob (Toy.wallet0, Toy.world0)))
  = Toy.wallet0 /\
  exists rw,
    Wallet.fromRecoverySeed Toy.kdf (VStr "0") (VStr "user@example.com")
      (VStr "SBOB") Toy.world0
    = (Ok rw, Toy.world0) /\
    Wallet._id rw = VStr "1d0/user@example.com/SBOB" /\
    Wallet.email rw = VStr "user@example.com" /\
    Wallet.secretSeed rw = "SBOB".
Proof.
  destruct (fromRecoverySeed_finds_recovery_data (P := Toy.provider)
              Toy.kdf Toy.Bob Toy.wallet0
              Toy.world0 _ _ toy_fromSecret_inverts_secret
              toy_own_address_is_valid eq_refl) as [Hw Hrw].
  split; [exact Hw|exact (Hrw Toy.world0)].
Defined.

Lemma generate_result_witness :
  Wallet.generate (VStr "user@example.com") Toy.world0
  = (Ok Toy.wallet0, Toy.advance Toy.world0) /\
  Wallet.generate VNull Toy.world0
  = (Throw (Error "Email is required."), Toy.advance Toy.world0).
Proof.
  split.
  - exact (generate_result (VStr "user@example.com") Toy.world0
             toy_own_address_is_valid).
  - exact (generate_result VNull Toy.world0 toy_own_address_is_valid).
Defined.

Lemma fromRecoverySeed_result_witness :
  snd (Wallet.fromRecoverySeed Toy.kdf (VStr "0") VNull (VStr "SBOB") Toy.world0)
  = Toy.world0 /\
  is_ok (fst (Wallet.fromRecoverySeed Toy.kdf (VStr "0") VNull (VStr "SBOB")
                Toy.world0)) = false.
Proof.
  split.
  - exact (proj1 (fromRecoverySeed_result (P := Toy.provider)
                    Toy.kdf (VStr "0") VNull (VStr "SBOB")
                    Toy.world0 toy_own_address_is_valid)).
  - reflexivity.
Defined.

Lemma signRequest_reads_keypair_and_clockDiff_only_witness :
  fst (Wallet.signRequest "/users"
         (Wallet.set_id (VStr "1d0") Toy.wallet0, Toy.world0))
  = fst (Wallet.signRequest "/users" (Toy.wallet0, Toy.world0)).
Proof.
  exact (proj1 (signRequest_reads_keypair_and_clockDiff_only "/users"
                  (Wallet.set_id (VStr "1d0") Toy.wallet0) Toy.wallet0
                  Toy.world0 eq_refl eq_refl)).
Defined.

Lemma deriveId_deterministic_witness :
  deterministic
    (deriveId_io provider_imports (VStr "user@example.com") (VStr "pw12345")
       Toy.kdf (VStr "0")) /\
  forall wd,
    Wallet.deriveId (VStr "user@example.com") (VStr "pw12345") Toy.kdf (VStr "0") wd
    = deriveId_io provider_imports (VStr "user@example.com") (VStr "pw12345")
        Toy.kdf (VStr "0") wd.
Proof.
  exact (deriveId_deterministic (P := Toy.provider) provider_imports
           (VStr "user@example.com") (VStr "pw12345") Toy.kdf (VStr "0")
           provider_imports_deterministic).
Defined.

(** Without the contract the conclusion fails: [deriveId] over a key
    derivation that draws from the entropy gives different ids in
    different worlds. *)
Lemma deriveId_io_follows_its_imports :
  fst (deriveId_io Toy.drawing_imports (VStr "user@example.com")
         (VStr "pw12345") Toy.kdf (VStr "0") Toy.world0) = Ok "1d0" /\
  fst (deriveId_io Toy.drawing_imports (VStr "user@example.com")
         (VStr "pw12345") Toy.kdf (VStr "0") (Toy.advance Toy.world0)) = Ok "1d1".
Proof. by split. Qed.
